(** * gorm/store/store.go: the generic gorm-backed store

    A shallow embedding of [Store] and its operations ([Get], [List],
    [Count], [Exists], [Create], [CreateMany], [Update], [PartialUpdate]).

    Go values are modelled as follows.
    - [error] is [option err]; [None] is Go's [nil].
    - A slice is [option (list A)]; [None] is the nil slice, so that an
      empty slice and a missing one stay different.
    - [*new(T)] is [zero] of the class [Zero T].
    - A nil interface or pointer field is [None]; calling a method through
      it panics, which the monad [M] represents by [None].
    - [*gorm.DB] is an immutable statement handle [DB]; the chain methods
      return an extended handle, the finisher methods run against the
      storage driver and are recorded in the call log of the [World]. *)

From Stdlib Require Import ZArith String List Bool Lia.
Import ListNotations.

Module gormstore.

(** ** Go values *)

(** Go error values that occur in this package. *)
Inductive err : Type :=
| errors_New (msg : string)      (* errors.New(msg) *)
| ErrRecordNotFound              (* gorm.ErrRecordNotFound *)
| ErrStorage (reason : string).  (* any other failure of the engine *)

Definition error : Type := option err.

Definition slice (A : Type) : Type := option (list A).

Definition elems {A : Type} (s : slice A) : list A :=
  match s with
  | Some l => l
  | None => []
  end.

(** The zero value of a type, Go's [*new(T)]. *)
Class Zero (A : Type) : Type := zero : A.

(** The constraint [comparable]: [==] decides equality. *)
Class Comparable (A : Type) : Type := {
  equal : A -> A -> bool;
  equal_spec : forall x y : A, equal x y = true <-> x = y
}.

(** The constraint [store.Entity[ID]]. *)
Class HasID (A ID : Type) : Type := GetID : A -> ID.

(** Entry points of the gorm API that reach the storage driver.  The last
    three are gorm's transaction control. *)
Inductive Op : Type :=
| OpFirst | OpFind | OpCount | OpCreate | OpSave | OpUpdates
| OpBegin | OpCommit | OpRollback.

Definition isTxControl (o : Op) : bool :=
  match o with
  | OpBegin | OpCommit | OpRollback => true
  | _ => false
  end.

Section Model.

(** The type parameters of [Store]. *)
Context {Entity DTO ID : Type}.
Context {zeroEntity : Zero Entity} {zeroDTO : Zero DTO} {zeroID : Zero ID}.
Context {comparableID : Comparable ID}.
Context {entityID : HasID Entity ID} {dtoID : HasID DTO ID}.

(** Types of the collaborators: a database connection or transaction,
    [context.Context], [query.Param], [query.Params], a gorm scope (a
    function from gorm handles to gorm handles), and the state of the
    storage engine. *)
Context {Conn Ctx Param Params Scope St : Type}.

(** *** gorm.DB *)

Record DB : Type := mkDB {
  dbConn : Conn;
  dbContext : option Ctx;
  dbModel : option DTO;
  dbScopes : list Scope;
  dbLimit : option Z
}.

Definition DB_WithContext (tx : DB) (ctx : Ctx) : DB :=
  mkDB (dbConn tx) (Some ctx) (dbModel tx) (dbScopes tx) (dbLimit tx).

Definition DB_Model (tx : DB) (value : DTO) : DB :=
  mkDB (dbConn tx) (dbContext tx) (Some value) (dbScopes tx) (dbLimit tx).

Definition DB_Scopes (tx : DB) (funcs : list Scope) : DB :=
  mkDB (dbConn tx) (dbContext tx) (dbModel tx) (dbScopes tx ++ funcs)
       (dbLimit tx).

Definition DB_Limit (tx : DB) (limit : Z) : DB :=
  mkDB (dbConn tx) (dbContext tx) (dbModel tx) (dbScopes tx) (Some limit).

(** The storage engine behind gorm.  Every method receives the statement
    handle and the value behind the destination pointer and returns the
    new engine state, the value left behind the pointer, and the error. *)
Class Driver : Type := {
  drvFirst : DB -> DTO -> St -> St * (DTO * error);
  drvFind : DB -> slice DTO -> St -> St * (slice DTO * error);
  drvCount : DB -> Z -> St -> St * (Z * error);
  drvCreate : DB -> DTO -> St -> St * (DTO * error);
  drvCreateBatch : DB -> list DTO -> St -> St * (list DTO * error);
  drvSave : DB -> DTO -> St -> St * (DTO * error);
  drvUpdates : DB -> DTO -> St -> St * (DTO * error)
}.

Context {driver : Driver}.

(** One call that reached the driver: entry point, statement handle, and
    the records handed over. *)
Record Call : Type := mkCall {
  callOp : Op;
  callTx : DB;
  callRows : list DTO
}.

Record World : Type := mkWorld {
  db : St;
  calls : list Call
}.

(** *** State and panic monad *)

Definition M (A : Type) : Type := World -> option (A * World).

Definition ret {A : Type} (a : A) : M A := fun w => Some (a, w).

Definition bind {A B : Type} (m : M A) (k : A -> M B) : M B :=
  fun w =>
    match m w with
    | Some (a, w') => k a w'
    | None => None
    end.

Definition panic {A : Type} : M A := fun _ => None.

(** Method call through a field that may be nil. *)
Definition deref {A : Type} (p : option A) : M A :=
  match p with
  | Some a => ret a
  | None => panic
  end.

(** [logged w op tx rows st] is [w] after one more driver call that left
    the engine in state [st]. *)
Definition logged (w : World) (op : Op) (tx : DB) (rows : list DTO)
           (st : St) : World :=
  mkWorld st (calls w ++ [mkCall op tx rows]).

Definition exec {A : Type} (op : Op) (tx : DB) (rows : list DTO)
           (run : St -> St * A) : M A :=
  fun w =>
    let (st, a) := run (db w) in
    Some (a, logged w op tx rows st).

Local Notation "x <- m ;; k" := (bind m (fun x => k))
  (at level 61, m at next level, right associativity).
Local Notation "' p <- m ;; k" := (bind m (fun x => let 'p := x in k))
  (at level 61, p pattern, m at next level, right associativity).

(** *** gorm finisher methods *)

Definition DB_First (tx : DB) (dest : DTO) : M (DTO * error) :=
  exec OpFirst tx [] (drvFirst tx dest).

Definition DB_Find (tx : DB) (dest : slice DTO) : M (slice DTO * error) :=
  exec OpFind tx [] (drvFind tx dest).

Definition DB_Count (tx : DB) (count : Z) : M (Z * error) :=
  exec OpCount tx [] (drvCount tx count).

Definition DB_Create (tx : DB) (value : DTO) : M (DTO * error) :=
  exec OpCreate tx [value] (drvCreate tx value).

Definition DB_Save (tx : DB) (value : DTO) : M (DTO * error) :=
  exec OpSave tx [value] (drvSave tx value).

Definition DB_Updates (tx : DB) (values : DTO) : M error :=
  '(_, e) <- exec OpUpdates tx [values] (drvUpdates tx values) ;;
  ret e.

(** Modelled from the spec: gorm's [CreateInBatches] belongs to the
    external storage engine.  It inserts the records in consecutive
    batches of [batchSize], in input order, and stops at the first batch
    that fails; an empty input issues no insert.  [fuel] bounds the number
    of batches; running out of it stands for a loop that does not end
    (a batch size that is not positive). *)
Fixpoint createInBatches (fuel : nat) (tx : DB) (rest : list DTO)
         (batchSize : nat) : M error :=
  match rest with
  | [] => ret None
  | _ :: _ =>
      match fuel with
      | O => panic
      | S fuel' =>
          '(_, e) <- exec OpCreate tx (firstn batchSize rest)
                       (drvCreateBatch tx (firstn batchSize rest)) ;;
          match e with
          | Some _ => ret e
          | None => createInBatches fuel' tx (skipn batchSize rest) batchSize
          end
      end
  end.

Definition DB_CreateInBatches (tx : DB) (value : slice DTO)
           (batchSize : Z) : M error :=
  createInBatches (length (elems value)) tx (elems value)
                  (Z.to_nat batchSize).

(** *** Collaborators inside the repository *)

(** [gormopscope.TransactionScope]: [Tx] resolves the transaction bound to
    the context, or the default connection. *)
Record gormopscope_TransactionScope : Type := {
  Tx : Ctx -> DB
}.

(** [converter.Converter[Entity, DTO, ID]]. *)
Record converter_Converter : Type := {
  ToEntity : DTO -> Entity;
  ToDTO : Entity -> DTO
}.

(** [gormquery.ScopeBuilder]. *)
Record gormquery_ScopeBuilder : Type := {
  Build : Params -> list Scope
}.

(** Functions of the repository that store.go calls and that are
    defined outside it. *)
Class Imports : Type := {
  (* query.NewParams(params...) *)
  query_NewParams : list Param -> Params;
  (* converter.NewReflect[Entity, DTO](nil) *)
  converter_NewReflect : converter_Converter;
  (* gormquery.NewBuilder(gormquery.WithFieldToColMap(
       gormutils.FieldToColMap(dto)))  *)
  gormquery_NewBuilder : DTO -> gormquery_ScopeBuilder
}.

Context {imports : Imports}.

(** Modelled from the spec: [converter.ToMany] is not part of store.go.
    It converts every item, keeps the input order, and returns an empty,
    not a missing, slice for empty input. *)
Definition converter_ToMany {T U : Type} (items : list T) (f : T -> U)
  : slice U :=
  Some (map f items).

(** Modelled from the spec: [defaultValue] is not part of store.go.  It
    replaces an unset or non-positive value by the default. *)
Definition defaultValue (v d : Z) : Z :=
  if (v <=? 0)%Z then d else v.

(** *** Store *)

(** [OpScope] is a pointer, [Converter] an interface value and
    [ScopeBuilder] a pointer: each of them may be nil. *)
Record Store : Type := mkStore {
  OpScope : option gormopscope_TransactionScope;
  Converter : option converter_Converter;
  ScopeBuilder : option gormquery_ScopeBuilder;
  BatchSize : Z
}.

Definition Option : Type := Store -> Store.

Definition New (opScope : option gormopscope_TransactionScope)
           (options : list Option) : Store :=
  let s := mkStore opScope None None 50 in
  let s := fold_left (fun s option => option s) options s in
  let s :=
    match Converter s with
    | None => mkStore (OpScope s) (Some converter_NewReflect)
                      (ScopeBuilder s) (BatchSize s)
    | Some _ => s
    end in
  let s :=
    match ScopeBuilder s with
    | None => mkStore (OpScope s) (Converter s)
                      (Some (gormquery_NewBuilder zero)) (BatchSize s)
    | Some _ => s
    end in
  s.

Definition getTx (s : Store) (ctx : Ctx) : M DB :=
  opScope <- deref (OpScope s) ;;
  ret (DB_Model (DB_WithContext (Tx opScope ctx) ctx) zero).

Definition buildScopes (s : Store) (params : list Param) : M (list Scope) :=
  b <- deref (ScopeBuilder s) ;;
  ret (Build b (query_NewParams params)).

Definition Get (s : Store) (ctx : Ctx) (params : list Param)
  : M (Entity * error) :=
  scopes <- buildScopes s params ;;
  tx <- getTx s ctx ;;
  '(dto, e) <- DB_First (DB_Scopes tx scopes) zero ;;
  match e with
  | Some _ => ret (zero, None)
  | None =>
      c <- deref (Converter s) ;;
      ret (ToEntity c dto, None)
  end.

Definition List (s : Store) (ctx : Ctx) (params : list Param)
  : M (slice Entity * error) :=
  scopes <- buildScopes s params ;;
  tx <- getTx s ctx ;;
  '(dtos, e) <- DB_Find (DB_Scopes tx scopes) None ;;
  match e with
  | Some _ => ret (None, e)
  | None =>
      c <- deref (Converter s) ;;
      ret (converter_ToMany (elems dtos) (ToEntity c), None)
  end.

Definition Count (s : Store) (ctx : Ctx) (params : list Param)
  : M (Z * error) :=
  scopes <- buildScopes s params ;;
  tx <- getTx s ctx ;;
  '(count, e) <- DB_Count (DB_Scopes tx scopes) 0 ;;
  match e with
  | Some _ => ret (0%Z, e)
  | None => ret (count, None)
  end.

Definition Exists (s : Store) (ctx : Ctx) (params : list Param)
  : M (bool * error) :=
  scopes <- buildScopes s params ;;
  tx <- getTx s ctx ;;
  '(count, e) <- DB_Count (DB_Limit (DB_Scopes tx scopes) 1) 0 ;;
  match e with
  | Some _ => ret (false, e)
  | None => ret ((0 <? count)%Z, None)
  end.

Definition Create (s : Store) (ctx : Ctx) (entity : Entity)
  : M (ID * error) :=
  c <- deref (Converter s) ;;
  let dto := ToDTO c entity in
  tx <- getTx s ctx ;;
  '(dto, e) <- DB_Create tx dto ;;
  match e with
  | Some _ => ret (zero, e)
  | None => ret (GetID dto, None)
  end.

Definition CreateMany (s : Store) (ctx : Ctx) (entities : list Entity)
  : M error :=
  c <- deref (Converter s) ;;
  let dtos := converter_ToMany entities (ToDTO c) in
  let batchSize := defaultValue (BatchSize s) 50 in
  tx <- getTx s ctx ;;
  DB_CreateInBatches tx dtos batchSize.

Definition Update (s : Store) (ctx : Ctx) (entity : Entity)
           (params : list Param) : M error :=
  c <- deref (Converter s) ;;
  let dto := ToDTO c entity in
  let id := GetID dto in
  if equal id zero && (length params =? 0)%nat then
    ret (Some (errors_New "id is required"))
  else
    tx <- getTx s ctx ;;
    tx <- (if (0 <? length params)%nat then
             scopes <- buildScopes s params ;;
             ret (DB_Scopes tx scopes)
           else ret tx) ;;
    '(_, e) <- DB_Save tx dto ;;
    ret e.

Definition PartialUpdate (s : Store) (ctx : Ctx) (entity : Entity)
           (params : list Param) : M error :=
  c <- deref (Converter s) ;;
  let dto := ToDTO c entity in
  scopes <- buildScopes s params ;;
  tx <- getTx s ctx ;;
  DB_Updates (DB_Scopes tx scopes) dto.

End Model.

(** ** A reference storage engine *)

(** Modelled from the spec: the storage engine (gorm and the database
    behind it) is an external collaborator, described only at its
    interface.  This in-memory engine keeps one table of rows; a row maps
    column names to values.  An engine whose [failing] is set fails every
    call with that error and changes nothing. *)
Module memdb.

Inductive Val : Type :=
| VInt (z : Z)
| VStr (s : string).

Definition isZero (v : Val) : bool :=
  match v with
  | VInt z => (z =? 0)%Z
  | VStr s => (s =? "")%string
  end.

Definition val_eqb (a b : Val) : bool :=
  match a, b with
  | VInt x, VInt y => (x =? y)%Z
  | VStr x, VStr y => (x =? y)%string
  | _, _ => false
  end.

Definition Row : Type := string -> Val.

Definition rowID (r : Row) : Z :=
  match r "id"%string with
  | VInt z => z
  | VStr _ => 0%Z
  end.

Definition setCol (r : Row) (col : string) (v : Val) : Row :=
  fun c => if (c =? col)%string then v else r c.

#[export] Instance zeroRow : Zero Row :=
  fun c => if (c =? "name")%string then VStr "" else VInt 0.
#[export] Instance zeroZ : Zero Z := 0%Z.
#[export] Instance comparableZ : Comparable Z :=
  {| equal := Z.eqb; equal_spec := Z.eqb_eq |}.
#[export] Instance rowHasID : HasID Row Z := rowID.

Definition Scope : Type := Row -> bool.

(** Connections are numbered; a context carries the number of the
    transaction it is bound to, if any. *)
Definition Conn : Type := nat.
Definition Ctx : Type := option nat.

Definition Handle : Type := @DB Row Conn Ctx Scope.

Record St : Type := mkSt {
  table : list Row;
  failing : option err;
  nextID : Z
}.

Definition matches (tx : Handle) (r : Row) : bool :=
  forallb (fun scope => scope r) (dbScopes tx).

Definition limited {A : Type} (tx : Handle) (l : list A) : list A :=
  match dbLimit tx with
  | Some n => firstn (Z.to_nat n) l
  | None => l
  end.

Definition selected (tx : Handle) (st : St) : list Row :=
  limited tx (filter (matches tx) (table st)).

(** Modelled from the spec: find-one returns the first row that passes the
    scopes and reports "no matching row" as [ErrRecordNotFound]. *)
Definition first (tx : Handle) (dest : Row) (st : St)
  : St * (Row * error) :=
  match failing st with
  | Some e => (st, (dest, Some e))
  | None =>
      match filter (matches tx) (table st) with
      | r :: _ => (st, (r, None))
      | [] => (st, (dest, Some ErrRecordNotFound))
      end
  end.

(** Modelled from the spec: find-many returns the rows that pass the
    scopes, in table order, as a slice that is never nil. *)
Definition find (tx : Handle) (dest : slice Row) (st : St)
  : St * (slice Row * error) :=
  match failing st with
  | Some e => (st, (dest, Some e))
  | None => (st, (Some (selected tx st), None))
  end.

(** Modelled from the spec: count returns the number of rows fetched. *)
Definition count (tx : Handle) (dest : Z) (st : St) : St * (Z * error) :=
  match failing st with
  | Some e => (st, (dest, Some e))
  | None => (st, (Z.of_nat (length (selected tx st)), None))
  end.

(** Modelled from the spec: an inserted record with a zero ID gets the
    next generated ID, any other record keeps the ID assigned to it. *)
Definition insertRow (acc : St * list Row) (r : Row) : St * list Row :=
  let (st, done) := acc in
  if (rowID r =? 0)%Z then
    let r' := setCol r "id" (VInt (nextID st)) in
    (mkSt (table st ++ [r']) (failing st) (nextID st + 1), done ++ [r'])
  else
    (mkSt (table st ++ [r]) (failing st) (nextID st), done ++ [r]).

(** Modelled from the spec: insert-batch appends the records in order. *)
Definition createBatch (tx : Handle) (values : list Row) (st : St)
  : St * (list Row * error) :=
  match failing st with
  | Some e => (st, (values, Some e))
  | None =>
      let (st', done) := fold_left insertRow values (st, []) in
      (st', (done, None))
  end.

Definition create (tx : Handle) (value : Row) (st : St)
  : St * (Row * error) :=
  let '(st', (done, e)) := createBatch tx [value] st in
  (st', (hd value done, e)).

(** The rows a write is aimed at: those that pass the scopes and, when
    the record carries an ID, have that ID. *)
Definition targeted (tx : Handle) (value : Row) (r : Row) : bool :=
  matches tx r && ((rowID value =? 0)%Z || (rowID r =? rowID value)%Z).

(** Modelled from the spec: save overwrites the whole row, zero-valued
    fields included. *)
Definition save (tx : Handle) (value : Row) (st : St)
  : St * (Row * error) :=
  match failing st with
  | Some e => (st, (value, Some e))
  | None =>
      (mkSt (map (fun r => if targeted tx value r then value else r)
                 (table st))
            (failing st) (nextID st),
       (value, None))
  end.

(** Modelled from the spec: partial-update writes a column when the
    record's field is not the zero value and leaves it as it is
    otherwise. *)
Definition merge (value : Row) (r : Row) : Row :=
  fun col => if isZero (value col) then r col else value col.

(** Modelled from the spec: partial-update merges the record into every
    targeted row. *)
Definition updates (tx : Handle) (value : Row) (st : St)
  : St * (Row * error) :=
  match failing st with
  | Some e => (st, (value, Some e))
  | None =>
      (mkSt (map (fun r => if targeted tx value r then merge value r else r)
                 (table st))
            (failing st) (nextID st),
       (value, None))
  end.

#[export] Instance engine : @Driver Row Conn Ctx Scope St := {|
  drvFirst := first;
  drvFind := find;
  drvCount := count;
  drvCreate := create;
  drvCreateBatch := createBatch;
  drvSave := save;
  drvUpdates := updates
|}.

(** Parameters of the reference setting: equality filters on a column. *)
Inductive Param : Type :=
| Filter (col : string) (v : Val).

Definition scopeOf (p : Param) : Scope :=
  match p with
  | Filter col v => fun r => val_eqb (r col) v
  end.

Definition builder : @gormquery_ScopeBuilder (list Param) Scope :=
  {| Build := map scopeOf |}.

(** Entities are rows as well and the converter copies them. *)
Definition copying : @converter_Converter Row Row :=
  {| ToEntity := fun r => r; ToDTO := fun r => r |}.

#[export] Instance imports : @Imports Row Row Param (list Param) Scope := {|
  query_NewParams := fun params => params;
  converter_NewReflect := copying;
  gormquery_NewBuilder := fun _ => builder
|}.

(** The transaction bound to the context, or connection 0. *)
Definition opScope : @gormopscope_TransactionScope Row Conn Ctx Scope :=
  {| Tx := fun ctx =>
             mkDB (match ctx with Some n => n | None => O end)
                  None None [] None |}.

Definition store : @Store Row Row Conn Ctx (list Param) Scope :=
  New (Some opScope) [].

Definition person (id : Z) (name : string) (age : Z) : Row :=
  fun c =>
    if (c =? "id")%string then VInt id
    else if (c =? "name")%string then VStr name
    else if (c =? "age")%string then VInt age
    else zero c.

Definition world (rows : list Row) (failure : error)
  : @World Row Conn Ctx Scope St :=
  mkWorld (mkSt rows failure 100) [].

(** Sample data: two persons, an engine that works and one that has lost
    its connection. *)
Definition alice : Row := person 1 "alice" 30.
Definition bob : Row := person 2 "bob" 41.
Definition people : list Row := [alice; bob].

Definition healthy : @World Row Conn Ctx Scope St := world people None.

Definition connectionLost : err := ErrStorage "connection lost".

Definition broken : @World Row Conn Ctx Scope St :=
  world people (Some connectionLost).

(** What the caller sees of an outcome: the result, the number of driver
    calls, and the table as (id, name, age). *)
Definition view {A : Type}
           (out : option (A * @World Row Conn Ctx Scope St))
  : option (A * nat * list (Val * Val * Val)) :=
  match out with
  | Some (r, w) =>
      Some (r, length (calls w),
            map (fun row =>
                   (row "id"%string, row "name"%string, row "age"%string))
                (table (db w)))
  | None => None
  end.

End memdb.

(** ** Properties of the store operations *)

Section Properties.

Context {Entity DTO ID : Type}.
Context {zeroEntity : Zero Entity} {zeroDTO : Zero DTO} {zeroID : Zero ID}.
Context {comparableID : Comparable ID} {dtoID : HasID DTO ID}.
Context {Conn Ctx Param Params Scope St : Type}.
Context {driver : @Driver DTO Conn Ctx Scope St}.
Context {imports : @Imports Entity DTO Param Params Scope}.

Local Abbreviation StoreT := (@Store Entity DTO Conn Ctx Params Scope).
Local Abbreviation WorldT := (@World DTO Conn Ctx Scope St).
Local Abbreviation BuilderT := (@gormquery_ScopeBuilder Params Scope).
Local Abbreviation ConverterT := (@converter_Converter Entity DTO).

Implicit Types (s : StoreT) (w : WorldT) (ctx : Ctx) (params : list Param).
Implicit Types (b : BuilderT) (c : ConverterT) (st : St).
Implicit Types (o : @gormopscope_TransactionScope DTO Conn Ctx Scope).

(** The handle [getTx] returns for a store whose transaction scope is
    [o]. *)
Definition txOf o ctx : DB :=
  DB_Model (DB_WithContext (Tx o ctx) ctx) zero.

(** The handle a query runs on: the resolved connection with the context,
    the model and the scopes compiled from the parameters. *)
Definition scoped o ctx b params : DB :=
  DB_Scopes (txOf o ctx) (Build b (query_NewParams params)).

(** The driver's answers to the batches [bs], inserted one after the other
    on [tx] from engine state [st] up to the first one that fails: the
    engine state reached, the error of the failing insert if any, and the
    number of inserts made. *)
Fixpoint insertBatches (tx : DB) (bs : list (list DTO)) (st : St)
  : St * error * nat :=
  match bs with
  | [] => (st, None, 0)
  | batch :: rest =>
      let '(st1, (_, e)) := drvCreateBatch tx batch st in
      match e with
      | Some _ => (st1, e, 1)
      | None =>
          let '(st2, e2, k) := insertBatches tx rest st1 in
          (st2, e2, S k)
      end
  end.

(** The driver accepts every batch on [tx], in every engine state. *)
Definition acceptsAll (tx : DB) : Prop :=
  forall (batch : list DTO) st,
    snd (snd (drvCreateBatch tx batch st)) = None.

(** The batches [CreateInBatches] is expected to insert: slices of [n]
    consecutive items, the last one possibly shorter. *)
Fixpoint batchesUpTo {A : Type} (fuel n : nat) (l : list A)
  : list (list A) :=
  match l with
  | [] => []
  | _ :: _ =>
      match fuel with
      | O => []
      | S fuel' => firstn n l :: batchesUpTo fuel' n (skipn n l)
      end
  end.

Definition batches {A : Type} (n : nat) (l : list A) : list (list A) :=
  batchesUpTo (length l) n l.

Fixpoint batchSizes (fuel n len : nat) : list nat :=
  match len with
  | O => []
  | S _ =>
      match fuel with
      | O => []
      | S fuel' => Nat.min n len :: batchSizes fuel' n (len - n)
      end
  end.

(** A driver call made on the connection or transaction that the
    transaction scope [o] resolves for [ctx], with that context, and
    which is not transaction control. *)
Definition onResolved o ctx (call : @Call DTO Conn Ctx Scope) : Prop :=
  dbConn (callTx call) = dbConn (Tx o ctx) /\
  dbContext (callTx call) = Some ctx /\
  isTxControl (callOp call) = false.

(** [m] returns, and every driver call it adds to the log is
    [onResolved]. *)
Definition confined o ctx {A : Type} (m : M A) : Prop :=
  forall w,
  exists (r : A) w' new,
    m w = Some (r, w') /\
    calls w' = calls w ++ new /\
    Forall (onResolved o ctx) new.

(** [m] returns, whatever the driver answers, and adds exactly the call
    [op] on [tx] with [rows] to the log. *)
Definition oneCall {A : Type} (m : M A) (op : Op) (tx : DB)
           (rows : list DTO) : Prop :=
  forall w,
  exists (r : A) w',
    m w = Some (r, w') /\
    calls w' = calls w ++ [mkCall op tx rows].

(** [m] returns, whatever the driver answers. *)
Definition returns {A : Type} (m : M A) : Prop :=
  forall w, exists (r : A) w', m w = Some (r, w').

(** *** New *)

Lemma New_sets_collaborators
      (opScope : option (@gormopscope_TransactionScope DTO Conn Ctx Scope))
      (options : list (@Option Entity DTO Conn Ctx Params Scope)) :
  exists c b,
    Converter (New opScope options) = Some c /\
    ScopeBuilder (New opScope options) = Some b.
Proof.
  unfold New. cbn zeta. set (s := fold_left _ _ _). clearbody s.
  destruct (Converter s) as [c|] eqn:Hc; cbn;
    destruct (ScopeBuilder s) as [b|] eqn:Hb; cbn; rewrite ?Hc; eauto.
Qed.

Lemma New_default_BatchSize
      (opScope : option (@gormopscope_TransactionScope DTO Conn Ctx Scope)) :
  BatchSize (New opScope []) = 50%Z.
Proof. reflexivity. Qed.

(** *** Get *)

Lemma buildScopes_run s b params w :
  ScopeBuilder s = Some b ->
  buildScopes s params w = Some (Build b (query_NewParams params), w).
Proof.
  intros Hb. unfold buildScopes, bind, deref. rewrite Hb. reflexivity.
Qed.

Lemma getTx_run s ctx o w :
  OpScope s = Some o ->
  getTx s ctx w = Some (txOf o ctx, w).
Proof.
  intros Ho. unfold getTx, bind, deref. rewrite Ho. reflexivity.
Qed.

Lemma Get_run s ctx params o b w :
  OpScope s = Some o ->
  ScopeBuilder s = Some b ->
  Get s ctx params w =
  let tx := scoped o ctx b params in
  match drvFirst tx zero (db w) with
  | (st, (dto, Some _)) => Some ((zero, None), logged w OpFirst tx [] st)
  | (st, (dto, None)) =>
      match Converter s with
      | Some c => Some ((ToEntity c dto, None), logged w OpFirst tx [] st)
      | None => None
      end
  end.
Proof.
  intros Ho Hb. unfold Get, bind. rewrite (buildScopes_run _ _ _ _ Hb).
  rewrite (getTx_run _ _ _ _ Ho). unfold DB_First, exec, scoped. cbn zeta.
  destruct (drvFirst _ _ _) as [st [dto [e|]]]; cbn; [reflexivity|].
  destruct (Converter s); reflexivity.
Qed.

(** C2.  When the driver's [First] reports that no record matches the
    compiled scopes, [Get] returns the zero value of [Entity] together
    with a nil error. *)
Theorem Get_not_found_is_zero_nil s ctx params o b w st dto :
  OpScope s = Some o ->
  ScopeBuilder s = Some b ->
  drvFirst (scoped o ctx b params) zero (db w)
    = (st, (dto, Some ErrRecordNotFound)) ->
  Get s ctx params w
    = Some ((zero, None), logged w OpFirst (scoped o ctx b params) [] st).
Proof.
  intros Ho Hb Hfirst. rewrite (Get_run _ _ _ _ _ _ Ho Hb). cbn zeta.
  rewrite Hfirst. reflexivity.
Qed.

(** C3.  Whatever the outcome of the storage query, the error result of
    [Get] is nil: no result of [Get] carries an error, a store with a
    transaction scope, a scope builder and a converter always gets a
    result, and every failure of [First], of whatever kind, yields the
    zero value of [Entity]. *)
Theorem Get_error_is_always_nil s ctx params w :
  (forall r w', Get s ctx params w = Some (r, w') -> snd r = None) /\
  (forall o b c,
      OpScope s = Some o ->
      ScopeBuilder s = Some b ->
      Converter s = Some c ->
      exists entity w', Get s ctx params w = Some ((entity, None), w')) /\
  (forall o b st dto e,
      OpScope s = Some o ->
      ScopeBuilder s = Some b ->
      drvFirst (scoped o ctx b params) zero (db w) = (st, (dto, Some e)) ->
      Get s ctx params w
        = Some ((zero, None),
                logged w OpFirst (scoped o ctx b params) [] st)).
Proof.
  split; [|split].
  - intros r w' Hget. destruct (ScopeBuilder s) as [b|] eqn:Hb.
    + destruct (OpScope s) as [o|] eqn:Ho.
      * rewrite (Get_run _ _ _ _ _ _ Ho Hb) in Hget. cbn zeta in Hget.
        destruct (drvFirst _ _ _) as [st [dto [e|]]].
        -- inversion Hget. reflexivity.
        -- destruct (Converter s); inversion Hget. reflexivity.
      * unfold Get, bind in Hget.
        rewrite (buildScopes_run _ _ _ _ Hb) in Hget.
        unfold getTx, bind, deref in Hget. rewrite Ho in Hget.
        discriminate Hget.
    + unfold Get, buildScopes, bind, deref in Hget. rewrite Hb in Hget.
      discriminate Hget.
  - intros o b c Ho Hb Hc. rewrite (Get_run _ _ _ _ _ _ Ho Hb). cbn zeta.
    rewrite Hc.
    destruct (drvFirst _ _ _) as [st [dto [e|]]]; eexists _, _; reflexivity.
  - intros o b st dto e Ho Hb Hfirst. rewrite (Get_run _ _ _ _ _ _ Ho Hb).
    cbn zeta. rewrite Hfirst. reflexivity.
Qed.

(** *** List *)

Lemma List_run s ctx params o b c w :
  OpScope s = Some o ->
  ScopeBuilder s = Some b ->
  Converter s = Some c ->
  List s ctx params w =
  let tx := scoped o ctx b params in
  let '(st, (dtos, e)) := drvFind tx None (db w) in
  Some (match e with
        | Some _ => (None, e)
        | None => (Some (map (ToEntity c) (elems dtos)), None)
        end,
        logged w OpFind tx [] st).
Proof.
  intros Ho Hb Hc. unfold List, bind. rewrite (buildScopes_run _ _ _ _ Hb).
  rewrite (getTx_run _ _ _ _ Ho). unfold DB_Find, exec, scoped. cbn zeta.
  destruct (drvFind _ _ _) as [st [dtos [e|]]]; cbn; [reflexivity|].
  rewrite Hc. reflexivity.
Qed.

(** C8.  [List] runs one [Find] on the handle carrying the compiled
    scopes.  On success it returns exactly one converted entity per
    fetched record, in the order fetched, so an empty fetch gives an
    empty slice, not a nil one, with a nil error.  On a storage error it
    returns the nil slice together with that error. *)
Theorem List_converts_fetched_records s ctx params o b c w st dtos e :
  OpScope s = Some o ->
  ScopeBuilder s = Some b ->
  Converter s = Some c ->
  drvFind (scoped o ctx b params) None (db w) = (st, (dtos, e)) ->
  exists r,
    List s ctx params w
      = Some (r, logged w OpFind (scoped o ctx b params) [] st) /\
    (e = None ->
     r = (Some (map (ToEntity c) (elems dtos)), None) /\
     (forall i dto, nth_error (elems dtos) i = Some dto ->
                    nth_error (elems (fst r)) i = Some (ToEntity c dto)) /\
     length (elems (fst r)) = length (elems dtos) /\
     (elems dtos = [] -> r = (Some [], None))) /\
    (forall x, e = Some x -> r = (None, Some x)).
Proof.
  intros Ho Hb Hc Hfind. rewrite (List_run _ _ _ _ _ _ _ Ho Hb Hc). cbn zeta.
  rewrite Hfind. eexists. split; [reflexivity|]. split.
  - intros ->. cbn. split; [reflexivity|]. split; [|split].
    + intros i dto Hi. now apply map_nth_error.
    + apply length_map.
    + intros ->. reflexivity.
  - intros x ->. reflexivity.
Qed.

(** *** Count and Exists *)

Lemma Count_run s ctx params o b w :
  OpScope s = Some o ->
  ScopeBuilder s = Some b ->
  Count s ctx params w =
  let tx := scoped o ctx b params in
  let '(st, (n, e)) := drvCount tx 0%Z (db w) in
  Some (match e with
        | Some _ => (0%Z, e)
        | None => (n, None)
        end,
        logged w OpCount tx [] st).
Proof.
  intros Ho Hb. unfold Count, bind. rewrite (buildScopes_run _ _ _ _ Hb).
  rewrite (getTx_run _ _ _ _ Ho). unfold DB_Count, exec, scoped. cbn zeta.
  destruct (drvCount _ _ _) as [st [n [e|]]]; reflexivity.
Qed.

Lemma Exists_run s ctx params o b w :
  OpScope s = Some o ->
  ScopeBuilder s = Some b ->
  Exists s ctx params w =
  let tx := DB_Limit (scoped o ctx b params) 1 in
  let '(st, (n, e)) := drvCount tx 0%Z (db w) in
  Some (match e with
        | Some _ => (false, e)
        | None => ((0 <? n)%Z, None)
        end,
        logged w OpCount tx [] st).
Proof.
  intros Ho Hb. unfold Exists, bind. rewrite (buildScopes_run _ _ _ _ Hb).
  rewrite (getTx_run _ _ _ _ Ho). unfold DB_Count, exec, scoped. cbn zeta.
  destruct (drvCount _ _ _) as [st [n [e|]]]; reflexivity.
Qed.

(** C6.  [Exists] runs one [Count] on the handle that carries the scopes
    compiled from the parameters and the limit 1.  It answers true
    exactly when the count is greater than zero, and on a storage error
    it answers false together with that error. *)
Theorem Exists_counts_with_limit_one s ctx params o b w st n e :
  OpScope s = Some o ->
  ScopeBuilder s = Some b ->
  drvCount (DB_Limit (scoped o ctx b params) 1) 0%Z (db w) = (st, (n, e)) ->
  exists found,
    Exists s ctx params w
      = Some ((found, e),
              logged w OpCount (DB_Limit (scoped o ctx b params) 1) [] st) /\
    dbLimit (DB_Limit (scoped o ctx b params) 1) = Some 1%Z /\
    dbScopes (DB_Limit (scoped o ctx b params) 1)
      = dbScopes (txOf o ctx) ++ Build b (query_NewParams params) /\
    (e = None -> (found = true <-> (0 < n)%Z)) /\
    (e <> None -> found = false).
Proof.
  intros Ho Hb Hcount. rewrite (Exists_run _ _ _ _ _ _ Ho Hb). cbn zeta.
  rewrite Hcount. destruct e as [x|].
  - exists false. split; [reflexivity|]. split; [reflexivity|].
    split; [reflexivity|]. split; [discriminate|reflexivity].
  - exists (0 <? n)%Z. split; [reflexivity|]. split; [reflexivity|].
    split; [reflexivity|]. split.
    + intros _. apply Z.ltb_lt.
    + intros Hne. now contradiction Hne.
Qed.

(** *** Create *)

Lemma Create_run s ctx entity o c w :
  OpScope s = Some o ->
  Converter s = Some c ->
  Create s ctx entity w =
  let dto := ToDTO c entity in
  let '(st, (dto', e)) := drvCreate (txOf o ctx) dto (db w) in
  Some (match e with
        | Some _ => (zero, e)
        | None => (GetID dto', None)
        end,
        logged w OpCreate (txOf o ctx) [dto] st).
Proof.
  intros Ho Hc. unfold Create, bind, deref. rewrite Hc. cbn [ret].
  rewrite (getTx_run _ _ _ _ Ho). unfold DB_Create, exec.
  destruct (drvCreate _ _ _) as [st [dto' [e|]]]; reflexivity.
Qed.

(** C7.  [Create] converts the entity to a record and inserts that record
    with one call.  On success it returns the ID of the record as the
    insert left it; on a failure it returns the zero value of [ID]
    together with the storage error. *)
Theorem Create_returns_inserted_id
        s ctx (entity : Entity) o c w st dto' e :
  OpScope s = Some o ->
  Converter s = Some c ->
  drvCreate (txOf o ctx) (ToDTO c entity) (db w) = (st, (dto', e)) ->
  exists id,
    Create s ctx entity w
      = Some ((id, e),
              logged w OpCreate (txOf o ctx) [ToDTO c entity] st) /\
    (e = None -> id = GetID dto') /\
    (e <> None -> id = zero).
Proof.
  intros Ho Hc Hcreate. rewrite (Create_run _ _ _ _ _ _ Ho Hc). cbn zeta.
  rewrite Hcreate. destruct e as [x|].
  - exists zero. split; [reflexivity|]. split; [discriminate|reflexivity].
  - exists (GetID dto'). split; [reflexivity|]. split; [reflexivity|].
    intros Hne. now contradiction Hne.
Qed.

(** *** Update *)

Lemma Update_run s ctx entity params o c w :
  OpScope s = Some o ->
  Converter s = Some c ->
  Update s ctx entity params w =
  let dto := ToDTO c entity in
  match params with
  | [] =>
      if equal (GetID dto) zero then
        Some (Some (errors_New "id is required"), w)
      else
        let '(st, (_, e)) := drvSave (txOf o ctx) dto (db w) in
        Some (e, logged w OpSave (txOf o ctx) [dto] st)
  | _ :: _ =>
      match ScopeBuilder s with
      | Some b =>
          let tx := scoped o ctx b params in
          let '(st, (_, e)) := drvSave tx dto (db w) in
          Some (e, logged w OpSave tx [dto] st)
      | None => None
      end
  end.
Proof.
  intros Ho Hc. unfold Update, bind, deref. rewrite Hc. cbn [ret].
  destruct params as [|p params]; cbn [length Nat.eqb Nat.ltb Nat.leb].
  - rewrite andb_true_r. destruct (equal _ _); [reflexivity|].
    rewrite (getTx_run _ _ _ _ Ho). unfold ret, DB_Save, exec.
    destruct (drvSave _ _ _) as [st [dto' e]]; reflexivity.
  - rewrite andb_false_r, (getTx_run _ _ _ _ Ho).
    unfold buildScopes, bind, deref.
    destruct (ScopeBuilder s) as [b|]; [|reflexivity].
    unfold ret, DB_Save, exec, scoped.
    destruct (drvSave _ _ _) as [st [dto' e]]; reflexivity.
Qed.

Lemma Update_rejects_zero_id s ctx entity c w :
  Converter s = Some c ->
  GetID (ToDTO c entity) = zero ->
  Update s ctx entity [] w = Some (Some (errors_New "id is required"), w).
Proof.
  intros Hc Hid. unfold Update, bind, deref. rewrite Hc. cbn [ret].
  apply equal_spec in Hid. rewrite Hid. reflexivity.
Qed.

(** C4.  When the converted record has the zero ID and no parameter is
    given, [Update] returns the validation error and the world, engine
    state and call log alike, is unchanged.  When at least one parameter
    is given, [Update] saves the record on the handle that carries the
    compiled scopes and returns what [Save] returns, whatever the ID of
    the entity. *)
Theorem Update_requires_id_or_params s ctx (entity : Entity) c w :
  Converter s = Some c ->
  (GetID (ToDTO c entity) = zero ->
   Update s ctx entity [] w = Some (Some (errors_New "id is required"), w)) /\
  (forall params o b st dto' e,
      params <> [] ->
      OpScope s = Some o ->
      ScopeBuilder s = Some b ->
      drvSave (scoped o ctx b params) (ToDTO c entity) (db w)
        = (st, (dto', e)) ->
      Update s ctx entity params w
        = Some (e, logged w OpSave (scoped o ctx b params)
                          [ToDTO c entity] st)).
Proof.
  intros Hc. split.
  - intros Hid. exact (Update_rejects_zero_id _ _ _ _ _ Hc Hid).
  - intros params o b st dto' e Hparams Ho Hb Hsave.
    rewrite (Update_run _ _ _ _ _ _ _ Ho Hc). cbn zeta.
    destruct params as [|p params]; [now contradiction Hparams|].
    rewrite Hb, Hsave. reflexivity.
Qed.

(** *** PartialUpdate *)

Lemma PartialUpdate_run s ctx entity params o b c w :
  OpScope s = Some o ->
  ScopeBuilder s = Some b ->
  Converter s = Some c ->
  PartialUpdate s ctx entity params w =
  let tx := scoped o ctx b params in
  let dto := ToDTO c entity in
  let '(st, (_, e)) := drvUpdates tx dto (db w) in
  Some (e, logged w OpUpdates tx [dto] st).
Proof.
  intros Ho Hb Hc. unfold PartialUpdate, bind, deref. rewrite Hc. cbn [ret].
  rewrite (buildScopes_run _ _ _ _ Hb), (getTx_run _ _ _ _ Ho).
  unfold DB_Updates, bind, exec, scoped. cbn zeta.
  destruct (drvUpdates _ _ _) as [st [dto' e]]; reflexivity.
Qed.

(** *** CreateMany *)

Lemma defaultValue_pos v d : (0 < d)%Z -> (0 < defaultValue v d)%Z.
Proof.
  intros Hd. unfold defaultValue. destruct (Z.leb_spec v 0); lia.
Qed.

Lemma batchesUpTo_nth {A : Type} (n : nat) :
  1 <= n ->
  forall fuel (l : list A) i batch,
    length l <= fuel ->
    nth_error (batchesUpTo fuel n l) i = Some batch ->
    batch = firstn n (skipn (i * n) l) /\ batch <> [].
Proof.
  intros Hn. induction fuel as [|fuel IH]; intros l i batch Hlen Hnth.
  - destruct l; [|cbn in Hlen; lia]. destruct i; discriminate Hnth.
  - destruct l as [|a l]; [destruct i; discriminate Hnth|].
    destruct i as [|i].
    + cbn [batchesUpTo nth_error] in Hnth. inversion Hnth. split.
      * reflexivity.
      * destruct n; [lia|]. discriminate.
    + cbn [batchesUpTo nth_error] in Hnth.
      apply IH in Hnth.
      * rewrite skipn_skipn in Hnth.
        replace (S i * n) with (i * n + n) by lia. exact Hnth.
      * rewrite length_skipn. cbn [length] in *. lia.
Qed.

Lemma batchesUpTo_concat {A : Type} (n : nat) :
  1 <= n ->
  forall fuel (l : list A),
    length l <= fuel -> concat (batchesUpTo fuel n l) = l.
Proof.
  intros Hn. induction fuel as [|fuel IH]; intros l Hlen.
  - destruct l; [reflexivity|cbn in Hlen; lia].
  - destruct l as [|a l]; [reflexivity|].
    cbn [batchesUpTo concat]. rewrite IH.
    + apply firstn_skipn.
    + rewrite length_skipn. cbn [length] in *. lia.
Qed.

Lemma batchesUpTo_lengths {A : Type} (n : nat) :
  forall fuel (l : list A),
    map (@length A) (batchesUpTo fuel n l) = batchSizes fuel n (length l).
Proof.
  induction fuel as [|fuel IH]; intros l.
  - destruct l; reflexivity.
  - destruct l as [|a l]; [reflexivity|].
    cbn [batchesUpTo map batchSizes length].
    rewrite IH, length_firstn, length_skipn. reflexivity.
Qed.

Lemma insertBatches_count (tx : DB) (bs : list (list DTO)) st :
  let '(_, e, k) := insertBatches tx bs st in
  k <= length bs /\
  (e = None -> k = length bs) /\
  (e <> None -> 1 <= k).
Proof.
  revert st. induction bs as [|batch rest IH]; intros st; cbn.
  - split; [lia|]. split; [reflexivity|]. intros Hne. now contradiction Hne.
  - destruct (drvCreateBatch tx batch st) as [st1 [done [x|]]].
    + split; [lia|]. split; [discriminate|lia].
    + specialize (IH st1).
      destruct (insertBatches tx rest st1) as [[st2 e2] k].
      destruct IH as (Hle & Hall & Hone).
      split; [lia|]. split; [intros He; rewrite (Hall He); reflexivity|lia].
Qed.

Lemma insertBatches_accepted (tx : DB) (bs : list (list DTO)) st :
  acceptsAll tx ->
  snd (fst (insertBatches tx bs st)) = None.
Proof.
  intros Hacc. revert st. induction bs as [|batch rest IH]; intros st; cbn.
  - reflexivity.
  - pose proof (Hacc batch st) as Hbatch.
    destruct (drvCreateBatch tx batch st) as [st1 [done e]].
    cbn in Hbatch. subst e. specialize (IH st1).
    destruct (insertBatches tx rest st1) as [[st2 e2] k]. exact IH.
Qed.

Lemma createInBatches_run (tx : DB) (n : nat) :
  1 <= n ->
  forall fuel (rest : list DTO) w,
    length rest <= fuel ->
    let '(st, e, k) := insertBatches tx (batchesUpTo fuel n rest) (db w) in
    createInBatches fuel tx rest n w
      = Some (e, mkWorld st
                         (calls w
                          ++ map (mkCall OpCreate tx)
                                 (firstn k (batchesUpTo fuel n rest)))).
Proof.
  intros Hn. induction fuel as [|fuel IH]; intros rest w Hlen.
  - destruct rest; [|cbn in Hlen; lia].
    destruct w as [st log]. cbn. rewrite app_nil_r. reflexivity.
  - destruct rest as [|a rest].
    + destruct w as [st log]. cbn. rewrite app_nil_r. reflexivity.
    + cbn [createInBatches batchesUpTo insertBatches]. unfold bind, exec.
      destruct (drvCreateBatch _ _ _) as [st1 [done [x|]]].
      * reflexivity.
      * specialize (IH (skipn n (a :: rest))
                       (logged w OpCreate tx (firstn n (a :: rest)) st1)).
        cbn [logged db calls] in IH.
        destruct (insertBatches tx _ st1) as [[st2 e2] k].
        rewrite IH.
        -- cbn [firstn map]. rewrite <- app_assoc. reflexivity.
        -- rewrite length_skipn. cbn [length] in *. lia.
Qed.

Lemma CreateMany_run s ctx (entities : list Entity) o c w :
  OpScope s = Some o ->
  Converter s = Some c ->
  let size := Z.to_nat (defaultValue (BatchSize s) 50) in
  let dtos := map (ToDTO c) entities in
  let '(st, e, k) := insertBatches (txOf o ctx) (batches size dtos) (db w) in
  CreateMany s ctx entities w
    = Some (e, mkWorld st
                       (calls w
                        ++ map (mkCall OpCreate (txOf o ctx))
                               (firstn k (batches size dtos)))).
Proof.
  intros Ho Hc size dtos.
  assert (Hsize : 1 <= size).
  { pose proof (defaultValue_pos (BatchSize s) 50 eq_refl). subst size. lia. }
  unfold CreateMany, bind, deref. rewrite Hc. cbn [ret].
  rewrite (getTx_run _ _ _ _ Ho).
  unfold DB_CreateInBatches, converter_ToMany. cbn [elems].
  exact (createInBatches_run (txOf o ctx) size Hsize
           (length dtos) dtos w (le_n _)).
Qed.

Lemma CreateMany_inserts_batches_log s ctx (entities : list Entity) o c w :
  OpScope s = Some o ->
  Converter s = Some c ->
  exists e w' bs,
    CreateMany s ctx entities w = Some (e, w') /\
    calls w' = calls w ++ map (mkCall OpCreate (txOf o ctx)) bs.
Proof.
  intros Ho Hc. pose proof (CreateMany_run s ctx entities o c w Ho Hc) as Hrun.
  cbn zeta in Hrun.
  destruct (insertBatches _ _ _) as [[st e] k].
  eexists _, _, _. split; [exact Hrun|reflexivity].
Qed.

(** C5.  [CreateMany] converts the entities in order and hands them to
    the driver in consecutive batches: the batch size is [BatchSize], or
    50 when [BatchSize] is zero or negative; batch [i] holds the records
    from position [i * size] on, at most [size] of them and at least one.
    The driver is called on one batch after the other, each on the engine
    state the one before left, up to the first one that fails; the result
    is the error of that insert, or nil when every insert succeeds, the
    engine is left as the last insert left it, and exactly the inserts
    made are logged, in order.  When the driver accepts every batch, all
    batches are inserted and the result is nil; when it rejects the first
    batch, that error is returned after this one call.  The batches put
    together are the converted input.  120 entities with [BatchSize] 50
    make three batches of 50, 50 and 20 records. *)
Theorem CreateMany_inserts_consecutive_batches
        s ctx (entities : list Entity) o c w :
  OpScope s = Some o ->
  Converter s = Some c ->
  let size := Z.to_nat (defaultValue (BatchSize s) 50) in
  let dtos := map (ToDTO c) entities in
  let tx := txOf o ctx in
  size = (if (BatchSize s <=? 0)%Z then 50 else Z.to_nat (BatchSize s)) /\
  (exists st' e k,
      insertBatches tx (batches size dtos) (db w) = (st', e, k) /\
      CreateMany s ctx entities w
        = Some (e, mkWorld st'
                           (calls w
                            ++ map (mkCall OpCreate tx)
                                   (firstn k (batches size dtos)))) /\
      (e = None -> firstn k (batches size dtos) = batches size dtos) /\
      (acceptsAll tx ->
       e = None /\ firstn k (batches size dtos) = batches size dtos)) /\
  (forall st1 done x,
      entities <> [] ->
      drvCreateBatch tx (firstn size dtos) (db w) = (st1, (done, Some x)) ->
      CreateMany s ctx entities w
        = Some (Some x, logged w OpCreate tx (firstn size dtos) st1)) /\
  (forall i batch,
      nth_error (batches size dtos) i = Some batch ->
      batch = firstn size (skipn (i * size) dtos) /\ batch <> []) /\
  concat (batches size dtos) = dtos /\
  (BatchSize s = 50%Z ->
   length entities = 120 ->
   map (@length DTO) (batches size dtos) = [50; 50; 20]).
Proof.
  intros Ho Hc size dtos tx.
  assert (Hsize : 1 <= size).
  { pose proof (defaultValue_pos (BatchSize s) 50 eq_refl). subst size. lia. }
  pose proof (CreateMany_run s ctx entities o c w Ho Hc) as Hrun.
  cbn zeta in Hrun. fold size dtos tx in Hrun.
  split; [|split; [|split; [|split; [|split]]]].
  - subst size. unfold defaultValue.
    destruct (BatchSize s <=? 0)%Z; reflexivity.
  - pose proof (insertBatches_count tx (batches size dtos) (db w)) as Hcount.
    pose proof (insertBatches_accepted tx (batches size dtos) (db w))
      as Hacc.
    destruct (insertBatches tx (batches size dtos) (db w)) as [[st' e] k].
    destruct Hcount as (_ & Hall & _). cbn [fst snd] in Hacc.
    exists st', e, k. split; [reflexivity|]. split; [exact Hrun|].
    assert (Hfull : e = None ->
                    firstn k (batches size dtos) = batches size dtos).
    { intros He. rewrite (Hall He). apply firstn_all. }
    split; [exact Hfull|]. intros Haccepts.
    split; [exact (Hacc Haccepts)|exact (Hfull (Hacc Haccepts))].
  - intros st1 done x Hne Hfirst.
    assert (Hdtos : exists a rest, dtos = a :: rest).
    { subst dtos. destruct entities as [|a rest]; [now contradiction Hne|].
      cbn. eauto. }
    destruct Hdtos as (a & rest & Hdtos).
    unfold batches in Hrun. rewrite Hdtos in Hrun, Hfirst |- *.
    cbn [length batchesUpTo insertBatches] in Hrun.
    rewrite Hfirst in Hrun. exact Hrun.
  - intros i batch. apply (batchesUpTo_nth _ Hsize). apply le_n.
  - apply (batchesUpTo_concat _ Hsize). apply le_n.
  - intros Hbs Hlen. unfold batches. rewrite batchesUpTo_lengths.
    subst size dtos. rewrite length_map, Hlen, Hbs. reflexivity.
Qed.

(** *** Every operation runs on the resolved connection *)

Lemma onResolved_txOf o ctx (op : Op) (rows : list DTO) :
  isTxControl op = false ->
  onResolved o ctx (mkCall op (txOf o ctx) rows).
Proof. intros Hop. repeat split. exact Hop. Qed.

Lemma onResolved_scoped o ctx b params (op : Op) (rows : list DTO) :
  isTxControl op = false ->
  onResolved o ctx (mkCall op (scoped o ctx b params) rows).
Proof. intros Hop. repeat split. exact Hop. Qed.

Lemma confined_one o ctx {A : Type} (out : option (A * WorldT)) w
      (r : A) op tx rows st :
  out = Some (r, logged w op tx rows st) ->
  onResolved o ctx (mkCall op tx rows) ->
  exists (r' : A) w' new,
    out = Some (r', w') /\
    calls w' = calls w ++ new /\
    Forall (onResolved o ctx) new.
Proof.
  intros Hrun Hcall. exists r, (logged w op tx rows st), [mkCall op tx rows].
  split; [exact Hrun|]. split; [reflexivity|]. now constructor.
Qed.

(** C10.  For a store with a transaction scope, a converter and a scope
    builder, every operation returns, and every call it makes to the
    driver is made on the connection or transaction that the transaction
    scope resolves for the request context, carries that context, and is
    none of Begin, Commit and Rollback. *)
Theorem operations_run_on_resolved_tx s ctx o b c :
  OpScope s = Some o ->
  ScopeBuilder s = Some b ->
  Converter s = Some c ->
  (forall params, confined o ctx (Get s ctx params)) /\
  (forall params, confined o ctx (List s ctx params)) /\
  (forall params, confined o ctx (Count s ctx params)) /\
  (forall params, confined o ctx (Exists s ctx params)) /\
  (forall entity, confined o ctx (Create s ctx entity)) /\
  (forall entities, confined o ctx (CreateMany s ctx entities)) /\
  (forall entity params, confined o ctx (Update s ctx entity params)) /\
  (forall entity params,
      confined o ctx (PartialUpdate s ctx entity params)).
Proof.
  intros Ho Hb Hc. repeat split; intros; intros w.
  - rewrite (Get_run _ _ _ _ _ _ Ho Hb). cbn zeta. rewrite Hc.
    destruct (drvFirst _ _ _) as [st [dto [e|]]];
      (eapply confined_one;
       [reflexivity|now apply onResolved_scoped]).
  - rewrite (List_run _ _ _ _ _ _ _ Ho Hb Hc). cbn zeta.
    destruct (drvFind _ _ _) as [st [dtos e]].
    eapply confined_one; [reflexivity|now apply onResolved_scoped].
  - rewrite (Count_run _ _ _ _ _ _ Ho Hb). cbn zeta.
    destruct (drvCount _ _ _) as [st [n e]].
    eapply confined_one; [reflexivity|now apply onResolved_scoped].
  - rewrite (Exists_run _ _ _ _ _ _ Ho Hb). cbn zeta.
    destruct (drvCount _ _ _) as [st [n e]].
    eapply confined_one; [reflexivity|]. repeat split.
  - rewrite (Create_run _ _ _ _ _ _ Ho Hc). cbn zeta.
    destruct (drvCreate _ _ _) as [st [dto' e]].
    eapply confined_one; [reflexivity|now apply onResolved_txOf].
  - destruct (CreateMany_inserts_batches_log s ctx entities o c w Ho Hc)
      as (e & w' & bs & Hrun & Hcalls).
    exists e, w', (map (mkCall OpCreate (txOf o ctx)) bs).
    split; [exact Hrun|]. split; [exact Hcalls|].
    apply Forall_forall. intros call Hin. apply in_map_iff in Hin.
    destruct Hin as (rows & <- & _). now apply onResolved_txOf.
  - rewrite (Update_run _ _ _ _ _ _ _ Ho Hc). cbn zeta.
    destruct params as [|p params].
    + destruct (equal _ _).
      * exists (Some (errors_New "id is required")), w, [].
        split; [reflexivity|]. split; [now rewrite app_nil_r|constructor].
      * destruct (drvSave _ _ _) as [st [dto' e]].
        eapply confined_one; [reflexivity|now apply onResolved_txOf].
    + rewrite Hb. cbn zeta. destruct (drvSave _ _ _) as [st [dto' e]].
      eapply confined_one; [reflexivity|now apply onResolved_scoped].
  - rewrite (PartialUpdate_run _ _ _ _ _ _ _ _ Ho Hb Hc). cbn zeta.
    destruct (drvUpdates _ _ _) as [st [dto' e]].
    eapply confined_one; [reflexivity|now apply onResolved_scoped].
Qed.

(** *** Further properties of the operations *)

(** X1.  When [First] finds a record, [Get] returns that record converted
    by the store's converter, with a nil error, after that one call. *)
Theorem Get_returns_converted_record s ctx params o b c w st dto :
  OpScope s = Some o ->
  ScopeBuilder s = Some b ->
  Converter s = Some c ->
  drvFirst (scoped o ctx b params) zero (db w) = (st, (dto, None)) ->
  Get s ctx params w
    = Some ((ToEntity c dto, None),
            logged w OpFirst (scoped o ctx b params) [] st).
Proof.
  intros Ho Hb Hc Hfirst. rewrite (Get_run _ _ _ _ _ _ Ho Hb). cbn zeta.
  rewrite Hfirst, Hc. reflexivity.
Qed.

(** X2.  [Count] needs no converter.  It runs one [Count] on the handle
    with the compiled scopes and the limit of the resolved handle.  On
    success it returns the count the driver reports; on a storage error it
    returns 0, whatever the driver left in the counter, together with that
    error. *)
Theorem Count_returns_count_or_zero s ctx params o b w st n e :
  OpScope s = Some o ->
  ScopeBuilder s = Some b ->
  drvCount (scoped o ctx b params) 0%Z (db w) = (st, (n, e)) ->
  exists total,
    Count s ctx params w
      = Some ((total, e), logged w OpCount (scoped o ctx b params) [] st) /\
    (e = None -> total = n) /\
    (e <> None -> total = 0%Z) /\
    dbLimit (scoped o ctx b params) = dbLimit (Tx o ctx).
Proof.
  intros Ho Hb Hcount. rewrite (Count_run _ _ _ _ _ _ Ho Hb). cbn zeta.
  rewrite Hcount. destruct e as [x|].
  - exists 0%Z. split; [reflexivity|]. split; [discriminate|].
    split; reflexivity.
  - exists n. split; [reflexivity|]. split; [reflexivity|].
    split; [|reflexivity]. intros Hne. now contradiction Hne.
Qed.

(** X3.  [Update] of an entity whose record has a non-zero ID, with no
    parameter, saves the record on the plain handle of [getTx]: no scope is
    added and the scope builder is not consulted, so this works for a store
    without a scope builder as well.  The result is the error of [Save]. *)
Theorem Update_by_id_saves_on_plain_handle
        s ctx (entity : Entity) o c w st dto' e :
  OpScope s = Some o ->
  Converter s = Some c ->
  GetID (ToDTO c entity) <> zero ->
  drvSave (txOf o ctx) (ToDTO c entity) (db w) = (st, (dto', e)) ->
  Update s ctx entity [] w
    = Some (e, logged w OpSave (txOf o ctx) [ToDTO c entity] st).
Proof.
  intros Ho Hc Hid Hsave. rewrite (Update_run _ _ _ _ _ _ _ Ho Hc). cbn zeta.
  destruct (equal (GetID (ToDTO c entity)) zero) eqn:Heq.
  - apply equal_spec in Heq. now contradiction Hid.
  - rewrite Hsave. reflexivity.
Qed.

(** X4.  [PartialUpdate] checks nothing before it reaches the storage:
    for every entity, also one whose record has the zero ID, and every
    parameter list, also the empty one, it runs one [Updates] with the
    converted record on the handle with the compiled scopes and returns
    the driver's error unchanged. *)
Theorem PartialUpdate_has_no_id_check
        s ctx (entity : Entity) params o b c w st dto' e :
  OpScope s = Some o ->
  ScopeBuilder s = Some b ->
  Converter s = Some c ->
  drvUpdates (scoped o ctx b params) (ToDTO c entity) (db w)
    = (st, (dto', e)) ->
  PartialUpdate s ctx entity params w
    = Some (e, logged w OpUpdates (scoped o ctx b params)
                      [ToDTO c entity] st) /\
  (GetID (ToDTO c entity) = zero ->
   Update s ctx entity [] w = Some (Some (errors_New "id is required"), w)).
Proof.
  intros Ho Hb Hc Hupdates. split.
  - rewrite (PartialUpdate_run _ _ _ _ _ _ _ _ Ho Hb Hc). cbn zeta.
    rewrite Hupdates. reflexivity.
  - intros Hid. exact (Update_rejects_zero_id _ _ _ _ _ Hc Hid).
Qed.

(** X5.  [New] fills in only what the options left nil: a converter or a
    scope builder set by an option is kept, a missing one is replaced by
    the default, and the batch size and the transaction scope are exactly
    what the options left (50 and the argument when no option touches
    them). *)
Theorem New_fills_only_missing_collaborators
        (opScope : option (@gormopscope_TransactionScope DTO Conn Ctx Scope))
        (options : list (@Option Entity DTO Conn Ctx Params Scope)) :
  let configured :=
    fold_left (fun s option => option s) options
              (mkStore opScope None None 50) in
  Converter (New opScope options)
    = Some (match Converter configured with
            | Some c => c
            | None => converter_NewReflect
            end) /\
  ScopeBuilder (New opScope options)
    = Some (match ScopeBuilder configured with
            | Some b => b
            | None => gormquery_NewBuilder zero
            end) /\
  BatchSize (New opScope options) = BatchSize configured /\
  OpScope (New opScope options) = OpScope configured.
Proof.
  intros configured. unfold New. cbn zeta. fold configured.
  destruct (Converter configured) as [c|] eqn:Hc; cbn;
    destruct (ScopeBuilder configured) as [b|] eqn:Hb; cbn;
    rewrite ?Hc, ?Hb; repeat split; reflexivity.
Qed.

Lemma operations_return s ctx o b c :
  OpScope s = Some o ->
  ScopeBuilder s = Some b ->
  Converter s = Some c ->
  (forall params, returns (Get s ctx params)) /\
  (forall params, returns (List s ctx params)) /\
  (forall params, returns (Count s ctx params)) /\
  (forall params, returns (Exists s ctx params)) /\
  (forall entity, returns (Create s ctx entity)) /\
  (forall entities, returns (CreateMany s ctx entities)) /\
  (forall entity params, returns (Update s ctx entity params)) /\
  (forall entity params, returns (PartialUpdate s ctx entity params)).
Proof.
  intros Ho Hb Hc. repeat split; intros; intros w.
  - rewrite (Get_run _ _ _ _ _ _ Ho Hb). cbn zeta. rewrite Hc.
    destruct (drvFirst _ _ _) as [st [dto [e|]]]; eexists _, _; reflexivity.
  - rewrite (List_run _ _ _ _ _ _ _ Ho Hb Hc). cbn zeta.
    destruct (drvFind _ _ _) as [st [dtos e]]. eexists _, _; reflexivity.
  - rewrite (Count_run _ _ _ _ _ _ Ho Hb). cbn zeta.
    destruct (drvCount _ _ _) as [st [n e]]. eexists _, _; reflexivity.
  - rewrite (Exists_run _ _ _ _ _ _ Ho Hb). cbn zeta.
    destruct (drvCount _ _ _) as [st [n e]]. eexists _, _; reflexivity.
  - rewrite (Create_run _ _ _ _ _ _ Ho Hc). cbn zeta.
    destruct (drvCreate _ _ _) as [st [dto' e]]. eexists _, _; reflexivity.
  - destruct (CreateMany_inserts_batches_log s ctx entities o c w Ho Hc)
      as (e & w' & bs & Hrun & _).
    exists e, w'. exact Hrun.
  - rewrite (Update_run _ _ _ _ _ _ _ Ho Hc). cbn zeta.
    destruct params as [|p params].
    + destruct (equal _ _); [eexists _, _; reflexivity|].
      destruct (drvSave _ _ _) as [st [dto' e]]. eexists _, _; reflexivity.
    + rewrite Hb. cbn zeta. destruct (drvSave _ _ _) as [st [dto' e]].
      eexists _, _; reflexivity.
  - rewrite (PartialUpdate_run _ _ _ _ _ _ _ _ Ho Hb Hc). cbn zeta.
    destruct (drvUpdates _ _ _) as [st [dto' e]]. eexists _, _; reflexivity.
Qed.

(** X6.  [New] does not check the transaction scope it is given.  For a
    store built by [New] whose transaction scope is not nil, [Get], [List],
    [Count], [Exists], [Create], [Update] and [PartialUpdate] return,
    whatever the options did to the converter and the scope builder and
    whatever the driver answers: [New] leaves neither of the two nil. *)
Theorem operations_of_New_return
        (opScope : option (@gormopscope_TransactionScope DTO Conn Ctx Scope))
        (options : list (@Option Entity DTO Conn Ctx Params Scope)) ctx o :
  OpScope (New opScope options) = Some o ->
  (forall params, returns (Get (New opScope options) ctx params)) /\
  (forall params, returns (List (New opScope options) ctx params)) /\
  (forall params, returns (Count (New opScope options) ctx params)) /\
  (forall params, returns (Exists (New opScope options) ctx params)) /\
  (forall entity, returns (Create (New opScope options) ctx entity)) /\
  (forall entity params,
      returns (Update (New opScope options) ctx entity params)) /\
  (forall entity params,
      returns (PartialUpdate (New opScope options) ctx entity params)).
Proof.
  intros Ho.
  destruct (New_sets_collaborators opScope options) as (c & b & Hc & Hb).
  destruct (operations_return _ ctx o b c Ho Hb Hc)
    as (HGet & HList & HCount & HExists & HCreate & _ & HUpdate & HPartial).
  repeat split; assumption.
Qed.

Lemma oneCall_logged {A : Type} (out : option (A * WorldT)) w (r : A)
      op tx rows st :
  out = Some (r, logged w op tx rows st) ->
  exists (r' : A) w',
    out = Some (r', w') /\ calls w' = calls w ++ [mkCall op tx rows].
Proof.
  intros ->. eexists _, _. split; reflexivity.
Qed.

(** X7.  No operation queries twice or retries: whatever the driver
    answers, [Get], [List], [Count], [Exists], [Create] and [PartialUpdate]
    make exactly one driver call, and so does [Update] unless it stops at
    the ID check.  [Create] and [Update] without parameters run on the
    plain handle of [getTx]; the others run on the handle with the
    compiled scopes, and only [Exists] adds a limit. *)
Theorem operations_make_one_call s ctx o b c :
  OpScope s = Some o ->
  ScopeBuilder s = Some b ->
  Converter s = Some c ->
  (forall params,
      oneCall (Get s ctx params) OpFirst (scoped o ctx b params) []) /\
  (forall params,
      oneCall (List s ctx params) OpFind (scoped o ctx b params) []) /\
  (forall params,
      oneCall (Count s ctx params) OpCount (scoped o ctx b params) []) /\
  (forall params,
      oneCall (Exists s ctx params) OpCount
              (DB_Limit (scoped o ctx b params) 1) []) /\
  (forall entity,
      oneCall (Create s ctx entity) OpCreate (txOf o ctx)
              [ToDTO c entity]) /\
  (forall entity params,
      oneCall (PartialUpdate s ctx entity params) OpUpdates
              (scoped o ctx b params) [ToDTO c entity]) /\
  (forall entity,
      GetID (ToDTO c entity) <> zero ->
      oneCall (Update s ctx entity []) OpSave (txOf o ctx)
              [ToDTO c entity]) /\
  (forall entity params,
      params <> [] ->
      oneCall (Update s ctx entity params) OpSave (scoped o ctx b params)
              [ToDTO c entity]).
Proof.
  intros Ho Hb Hc. repeat split; intros; intros w.
  - rewrite (Get_run _ _ _ _ _ _ Ho Hb). cbn zeta. rewrite Hc.
    destruct (drvFirst _ _ _) as [st [dto [e|]]];
      (eapply oneCall_logged; reflexivity).
  - rewrite (List_run _ _ _ _ _ _ _ Ho Hb Hc). cbn zeta.
    destruct (drvFind _ _ _) as [st [dtos e]].
    eapply oneCall_logged; reflexivity.
  - rewrite (Count_run _ _ _ _ _ _ Ho Hb). cbn zeta.
    destruct (drvCount _ _ _) as [st [n e]].
    eapply oneCall_logged; reflexivity.
  - rewrite (Exists_run _ _ _ _ _ _ Ho Hb). cbn zeta.
    destruct (drvCount _ _ _) as [st [n e]].
    eapply oneCall_logged; reflexivity.
  - rewrite (Create_run _ _ _ _ _ _ Ho Hc). cbn zeta.
    destruct (drvCreate _ _ _) as [st [dto' e]].
    eapply oneCall_logged; reflexivity.
  - rewrite (PartialUpdate_run _ _ _ _ _ _ _ _ Ho Hb Hc). cbn zeta.
    destruct (drvUpdates _ _ _) as [st [dto' e]].
    eapply oneCall_logged; reflexivity.
  - rewrite (Update_run _ _ _ _ _ _ _ Ho Hc). cbn zeta.
    destruct (equal (GetID (ToDTO c entity)) zero) eqn:Heq.
    + apply equal_spec in Heq. congruence.
    + destruct (drvSave _ _ _) as [st [dto' e]].
      eapply oneCall_logged; reflexivity.
  - rewrite (Update_run _ _ _ _ _ _ _ Ho Hc). cbn zeta.
    destruct params as [|p params]; [congruence|].
    rewrite Hb. cbn zeta. destruct (drvSave _ _ _) as [st [dto' e]].
    eapply oneCall_logged; reflexivity.
Qed.

Lemma batchesUpTo_length {A : Type} (n : nat) :
  1 <= n ->
  forall fuel (l : list A),
    length l <= fuel ->
    length (batchesUpTo fuel n l) = (length l + n - 1) / n.
Proof.
  intros Hn. induction fuel as [|fuel IH]; intros l Hlen.
  - destruct l; [|cbn in Hlen; lia]. cbn. symmetry. apply Nat.div_small. lia.
  - destruct l as [|a l].
    + cbn. symmetry. apply Nat.div_small. lia.
    + cbn [batchesUpTo]. cbn [length]. rewrite IH.
      * rewrite length_skipn. cbn [length]. cbn [length] in Hlen.
        replace (S (length l) + n - 1) with (length l + 1 * n) by lia.
        rewrite Nat.div_add by lia.
        destruct (Nat.le_gt_cases (S (length l)) n) as [Hle|Hgt].
        -- replace (S (length l) - n + n - 1) with (n - 1) by lia.
           rewrite !Nat.div_small by lia. reflexivity.
        -- replace (S (length l) - n + n - 1) with (length l) by lia. lia.
      * rewrite length_skipn. cbn [length] in *. lia.
Qed.

(** X8.  With a positive [BatchSize], [CreateMany] calls the driver on one
    batch after the other up to the first insert that fails, and returns
    the error of that insert or nil.  The number of inserts made is at most
    [(length entities + BatchSize - 1) / BatchSize], and is exactly that
    when the result is nil; a driver that accepts every batch gets them
    all, with a nil result.  For empty input no insert is made, the
    result is nil and the world is as it was. *)
Theorem CreateMany_number_of_inserts
        s ctx (entities : list Entity) o c w :
  OpScope s = Some o ->
  Converter s = Some c ->
  (0 < BatchSize s)%Z ->
  let size := Z.to_nat (BatchSize s) in
  let full := (length entities + size - 1) / size in
  let tx := txOf o ctx in
  let bs := batches size (map (ToDTO c) entities) in
  exists st' e k,
    insertBatches tx bs (db w) = (st', e, k) /\
    CreateMany s ctx entities w
      = Some (e, mkWorld st'
                         (calls w ++ map (mkCall OpCreate tx) (firstn k bs))) /\
    length (firstn k bs) = k /\
    k <= full /\
    (e = None -> k = full) /\
    (acceptsAll tx -> e = None /\ k = full) /\
    (entities = [] ->
     e = None /\
     mkWorld st' (calls w ++ map (mkCall OpCreate tx) (firstn k bs)) = w).
Proof.
  intros Ho Hc Hpos size full tx bs.
  assert (Hsize : 1 <= size) by (subst size; lia).
  pose proof (CreateMany_run s ctx entities o c w Ho Hc) as Hrun.
  cbn zeta in Hrun. unfold defaultValue in Hrun.
  destruct (Z.leb_spec (BatchSize s) 0) as [Hle|_]; [lia|].
  fold size tx bs in Hrun.
  pose proof (batchesUpTo_length size Hsize
                (length (map (ToDTO c) entities)) (map (ToDTO c) entities)
                (le_n _)) as Hfull.
  rewrite length_map in Hfull at 2. fold full in Hfull.
  change (batchesUpTo _ size _) with bs in Hfull.
  pose proof (insertBatches_count tx bs (db w)) as Hcount.
  pose proof (insertBatches_accepted tx bs (db w)) as Hacc.
  destruct (insertBatches tx bs (db w)) as [[st' e] k] eqn:Hins.
  destruct Hcount as (Hle & Hall & _). cbn [fst snd] in Hacc.
  exists st', e, k. split; [reflexivity|]. split; [exact Hrun|].
  split; [rewrite length_firstn; lia|]. split; [lia|].
  split; [intros He; rewrite (Hall He); exact Hfull|]. split.
  - intros Haccepts. split; [exact (Hacc Haccepts)|].
    rewrite (Hall (Hacc Haccepts)). exact Hfull.
  - intros ->. subst bs. cbn in Hins. inversion Hins. subst st' e k.
    split; [reflexivity|]. destruct w as [st log]. cbn.
    rewrite app_nil_r. reflexivity.
Qed.

End Properties.

(** ** Properties on the reference engine *)

Section OnMemdb.

Import memdb.

Context {Entity : Type} {zeroEntity : Zero Entity}.
Context {Param Params : Type}.
Context {imports : @Imports Entity Row Param Params Scope}.

Local Abbreviation StoreT := (@Store Entity Row Conn Ctx Params Scope).
Local Abbreviation WorldT := (@World Row Conn Ctx Scope St).

Lemma Forall2_map_same {A : Type} (R : A -> A -> Prop) (f : A -> A) l :
  (forall x, R x (f x)) -> Forall2 R l (map f l).
Proof.
  intros HR. induction l as [|x l IH]; cbn; constructor; auto.
Qed.

(** C9.  On the reference engine, [PartialUpdate] converts the entity to a
    record and runs one [Updates] on the handle carrying the scopes
    compiled from the parameters, which may be none.  In every row the
    column [col] ends up with the record's value when the row is targeted
    and the record's field [col] is not zero, and keeps its old value
    otherwise; no row is added or removed.  When the engine fails, the
    storage error is returned and the table is as before. *)
Theorem PartialUpdate_writes_only_nonzero_fields
        (s : StoreT) (ctx : Ctx) (entity : Entity) (params : list Param)
        o b c (w : WorldT) :
  OpScope s = Some o ->
  ScopeBuilder s = Some b ->
  Converter s = Some c ->
  exists e w',
    PartialUpdate s ctx entity params w = Some (e, w') /\
    e = failing (db w) /\
    calls w' = calls w ++ [mkCall OpUpdates (scoped o ctx b params)
                                  [ToDTO c entity]] /\
    Forall2
      (fun old new : Row =>
         forall col,
           new col =
           if (match e with None => true | Some _ => false end)
              && targeted (scoped o ctx b params) (ToDTO c entity) old
              && negb (isZero (ToDTO c entity col))
           then ToDTO c entity col
           else old col)
      (table (db w)) (table (db w')).
Proof.
  intros Ho Hb Hc. rewrite (PartialUpdate_run _ _ _ _ _ _ _ _ Ho Hb Hc).
  cbn zeta. cbn [drvUpdates engine]. unfold updates.
  destruct (failing (db w)) as [x|] eqn:Hfail.
  - eexists _, _. split; [reflexivity|]. split; [reflexivity|].
    split; [reflexivity|]. cbn [logged db andb].
    rewrite <- (map_id (table (db w))) at 2.
    apply Forall2_map_same. reflexivity.
  - eexists _, _. split; [reflexivity|]. split; [reflexivity|].
    split; [reflexivity|]. cbn [logged db table andb].
    apply Forall2_map_same. intros old col.
    destruct (targeted _ _ old); [|reflexivity]. unfold merge.
    destruct (isZero _); reflexivity.
Qed.

End OnMemdb.

(** ** The operations on sample data *)

Section Samples.

Import memdb.

Local Open Scope string_scope.

Example Exists_sample :
  view (Exists store None [Filter "name" (VStr "bob")] healthy)
    = Some ((true, None), 1,
            [(VInt 1, VStr "alice", VInt 30); (VInt 2, VStr "bob", VInt 41)]).
Proof. reflexivity. Qed.

Example Update_sample_without_id :
  view (Update store None (person 0 "carol" 7) [] healthy)
    = Some (Some (errors_New "id is required"), 0,
            [(VInt 1, VStr "alice", VInt 30); (VInt 2, VStr "bob", VInt 41)]).
Proof. reflexivity. Qed.

Example PartialUpdate_sample :
  view (PartialUpdate store None (person 2 "" 50) [] healthy)
    = Some (None, 1,
            [(VInt 1, VStr "alice", VInt 30); (VInt 2, VStr "bob", VInt 50)]).
Proof. reflexivity. Qed.

Example CreateMany_sample :
  option_map
    (fun out => (fst out, map (fun call => length (callRows call))
                              (calls (snd out))))
    (CreateMany store None (repeat (person 0 "dave" 5) 120) healthy)
    = Some (None, [50; 50; 20]).
Proof. vm_compute. reflexivity. Qed.

(** C1.  Evaluation at the failing input: the engine has lost its connection,
    so [First] fails with an error that is not the not-found signal, and
    [Get] returns the zero entity with a nil error; the storage error does
    not reach the caller. *)
Example Get_drops_storage_error :
  snd (snd (drvFirst (scoped opScope None builder [Filter "id" (VInt 2)])
                     zero (db broken)))
    = Some connectionLost /\
  connectionLost <> ErrRecordNotFound /\
  option_map fst (Get store None [Filter "id" (VInt 2)] broken)
    = Some (zero, None).
Proof.
  split; [reflexivity|]. split; [discriminate|reflexivity].
Qed.

Lemma Get_not_found_is_zero_nil_witness :
  OpScope store = Some opScope /\
  ScopeBuilder store = Some builder /\
  drvFirst (scoped opScope None builder [Filter "id" (VInt 5)]) zero
           (db healthy)
    = (db healthy, (zero, Some ErrRecordNotFound)) /\
  Get store None [Filter "id" (VInt 5)] healthy
    = Some ((zero, None),
            logged healthy OpFirst
                   (scoped opScope None builder [Filter "id" (VInt 5)]) []
                   (db healthy)).
Proof.
  split; [reflexivity|]. split; [reflexivity|]. split; [reflexivity|].
  apply (Get_not_found_is_zero_nil store None [Filter "id" (VInt 5)]
           opScope builder healthy (db healthy) zero); reflexivity.
Defined.

Lemma Get_error_is_always_nil_witness :
  OpScope store = Some opScope /\
  ScopeBuilder store = Some builder /\
  Converter store = Some copying /\
  exists entity w',
    Get store None [Filter "id" (VInt 2)] broken = Some ((entity, None), w').
Proof.
  split; [reflexivity|]. split; [reflexivity|]. split; [reflexivity|].
  apply (proj1 (proj2 (Get_error_is_always_nil
                         store None [Filter "id" (VInt 2)] broken))
           opScope builder copying); reflexivity.
Defined.

Lemma List_converts_fetched_records_witness :
  OpScope store = Some opScope /\
  ScopeBuilder store = Some builder /\
  Converter store = Some copying /\
  drvFind (scoped opScope None builder [Filter "age" (VInt 41)]) None
          (db healthy)
    = (db healthy, (Some [bob], None)) /\
  exists r,
    List store None [Filter "age" (VInt 41)] healthy
      = Some (r, logged healthy OpFind
                        (scoped opScope None builder [Filter "age" (VInt 41)])
                        [] (db healthy)) /\
    r = (Some [bob], None).
Proof.
  split; [reflexivity|]. split; [reflexivity|]. split; [reflexivity|].
  split; [reflexivity|].
  destruct (List_converts_fetched_records
              store None [Filter "age" (VInt 41)] opScope builder copying
              healthy (db healthy) (Some [bob]) None)
    as (r & Hrun & Hok & _);
    [reflexivity|reflexivity|reflexivity|reflexivity|].
  exists r. split; [exact Hrun|]. exact (proj1 (Hok eq_refl)).
Defined.

Lemma Exists_counts_with_limit_one_witness :
  OpScope store = Some opScope /\
  ScopeBuilder store = Some builder /\
  drvCount (DB_Limit (scoped opScope None builder [Filter "id" (VInt 2)]) 1)
           0%Z (db healthy)
    = (db healthy, (1%Z, None)) /\
  Exists store None [Filter "id" (VInt 2)] healthy
    = Some ((true, None),
            logged healthy OpCount
                   (DB_Limit (scoped opScope None builder
                                     [Filter "id" (VInt 2)]) 1)
                   [] (db healthy)).
Proof.
  split; [reflexivity|]. split; [reflexivity|]. split; [reflexivity|].
  destruct (Exists_counts_with_limit_one
              store None [Filter "id" (VInt 2)] opScope builder healthy
              (db healthy) 1%Z None)
    as (found & Hrun & _ & _ & Hfound & _);
    [reflexivity|reflexivity|reflexivity|].
  rewrite Hrun. rewrite (proj2 (Hfound eq_refl) eq_refl). reflexivity.
Defined.

Lemma Create_returns_inserted_id_witness :
  OpScope store = Some opScope /\
  Converter store = Some copying /\
  exists st dto',
    drvCreate (txOf opScope None) (ToDTO copying (person 0 "carol" 7))
              (db healthy)
      = (st, (dto', None)) /\
    Create store None (person 0 "carol" 7) healthy
      = Some ((100%Z, None),
              logged healthy OpCreate (txOf opScope None)
                     [ToDTO copying (person 0 "carol" 7)] st).
Proof.
  split; [reflexivity|]. split; [reflexivity|].
  eexists _, _. split; [reflexivity|].
  edestruct (Create_returns_inserted_id
               store None (person 0 "carol" 7) opScope copying healthy)
    as (id & Hrun & Hid & _); [reflexivity|reflexivity|reflexivity|].
  rewrite Hrun, (Hid eq_refl). reflexivity.
Defined.

Lemma Update_requires_id_or_params_witness :
  OpScope store = Some opScope /\
  Converter store = Some copying /\
  GetID (ToDTO copying (person 0 "carol" 7)) = zero /\
  Update store None (person 0 "carol" 7) [] healthy
    = Some (Some (errors_New "id is required"), healthy) /\
  exists w',
    Update store None (person 0 "carol" 7) [Filter "id" (VInt 2)] healthy
      = Some (None, w').
Proof.
  split; [reflexivity|]. split; [reflexivity|]. split; [reflexivity|].
  destruct (Update_requires_id_or_params
              store None (person 0 "carol" 7) copying healthy)
    as [Hzero Hparams]; [reflexivity|].
  split; [apply Hzero; reflexivity|].
  eexists.
  eapply (Hparams [Filter "id" (VInt 2)] opScope builder _ _ None);
    [discriminate|reflexivity|reflexivity|reflexivity].
Defined.

Lemma CreateMany_inserts_consecutive_batches_witness :
  OpScope store = Some opScope /\
  Converter store = Some copying /\
  BatchSize store = 50%Z /\
  length (repeat alice 120) = 120 /\
  (exists st',
      CreateMany store None (repeat alice 120) healthy
        = Some (None,
                mkWorld st'
                  (calls healthy
                   ++ map (mkCall OpCreate (txOf opScope None))
                          (batches
                             (Z.to_nat (defaultValue (BatchSize store) 50))
                             (map (ToDTO copying) (repeat alice 120)))))) /\
  map (@length Row)
      (batches (Z.to_nat (defaultValue (BatchSize store) 50))
               (map (ToDTO copying) (repeat alice 120)))
    = [50; 50; 20].
Proof.
  split; [reflexivity|]. split; [reflexivity|]. split; [reflexivity|].
  split; [reflexivity|].
  destruct (CreateMany_inserts_consecutive_batches
              store None (repeat alice 120) opScope copying healthy)
    as (_ & (st' & e & k & Hins & Hrun & Hfull & _) & _ & _ & _ & Hsizes);
    [reflexivity|reflexivity|].
  split; [|apply Hsizes; reflexivity].
  assert (He : e = None).
  { apply (f_equal (fun out => snd (fst out))) in Hins.
    vm_compute in Hins. symmetry. exact Hins. }
  exists st'. rewrite Hrun, (Hfull He), He. reflexivity.
Defined.

Lemma operations_run_on_resolved_tx_witness :
  OpScope store = Some opScope /\
  ScopeBuilder store = Some builder /\
  Converter store = Some copying /\
  (forall entity params,
      confined opScope (Some 7) (Update store (Some 7) entity params)).
Proof.
  split; [reflexivity|]. split; [reflexivity|]. split; [reflexivity|].
  apply (operations_run_on_resolved_tx store (Some 7) opScope builder
           copying); reflexivity.
Defined.

Lemma PartialUpdate_writes_only_nonzero_fields_witness :
  OpScope store = Some opScope /\
  ScopeBuilder store = Some builder /\
  Converter store = Some copying /\
  exists e w',
    PartialUpdate store None (person 2 "" 50) [] healthy = Some (e, w') /\
    e = None.
Proof.
  split; [reflexivity|]. split; [reflexivity|]. split; [reflexivity|].
  destruct (PartialUpdate_writes_only_nonzero_fields
              store None (person 2 "" 50) [] opScope builder copying healthy)
    as (e & w' & Hrun & He & _); [reflexivity|reflexivity|reflexivity|].
  exists e, w'. split; [exact Hrun|exact He].
Defined.

Lemma Get_returns_converted_record_witness :
  OpScope store = Some opScope /\
  ScopeBuilder store = Some builder /\
  Converter store = Some copying /\
  drvFirst (scoped opScope None builder [Filter "id" (VInt 2)]) zero
           (db healthy)
    = (db healthy, (bob, None)) /\
  Get store None [Filter "id" (VInt 2)] healthy
    = Some ((ToEntity copying bob, None),
            logged healthy OpFirst
                   (scoped opScope None builder [Filter "id" (VInt 2)]) []
                   (db healthy)).
Proof.
  split; [reflexivity|]. split; [reflexivity|]. split; [reflexivity|].
  split; [reflexivity|].
  apply (Get_returns_converted_record
           store None [Filter "id" (VInt 2)] opScope builder copying healthy
           (db healthy) bob); reflexivity.
Defined.

Lemma Count_returns_count_or_zero_witness :
  OpScope store = Some opScope /\
  ScopeBuilder store = Some builder /\
  drvCount (scoped opScope None builder [Filter "age" (VInt 41)]) 0%Z
           (db healthy)
    = (db healthy, (1%Z, None)) /\
  Count store None [Filter "age" (VInt 41)] healthy
    = Some ((1%Z, None),
            logged healthy OpCount
                   (scoped opScope None builder [Filter "age" (VInt 41)]) []
                   (db healthy)).
Proof.
  split; [reflexivity|]. split; [reflexivity|]. split; [reflexivity|].
  destruct (Count_returns_count_or_zero
              store None [Filter "age" (VInt 41)] opScope builder healthy
              (db healthy) 1%Z None)
    as (total & Hrun & Htotal & _); [reflexivity|reflexivity|reflexivity|].
  rewrite Hrun, (Htotal eq_refl). reflexivity.
Defined.

Lemma Update_by_id_saves_on_plain_handle_witness :
  OpScope store = Some opScope /\
  Converter store = Some copying /\
  GetID (ToDTO copying (person 2 "bobby" 42)) <> zero /\
  exists st,
    Update store None (person 2 "bobby" 42) [] healthy
      = Some (None,
              logged healthy OpSave (txOf opScope None)
                     [ToDTO copying (person 2 "bobby" 42)] st).
Proof.
  split; [reflexivity|]. split; [reflexivity|]. split; [discriminate|].
  eexists.
  eapply (Update_by_id_saves_on_plain_handle
            store None (person 2 "bobby" 42) opScope copying healthy
            _ _ None);
    [reflexivity|reflexivity|discriminate|reflexivity].
Defined.

Lemma PartialUpdate_has_no_id_check_witness :
  OpScope store = Some opScope /\
  ScopeBuilder store = Some builder /\
  Converter store = Some copying /\
  GetID (ToDTO copying (person 0 "" 50)) = zero /\
  (exists w', PartialUpdate store None (person 0 "" 50) [] healthy
              = Some (None, w')) /\
  Update store None (person 0 "" 50) [] healthy
    = Some (Some (errors_New "id is required"), healthy).
Proof.
  split; [reflexivity|]. split; [reflexivity|]. split; [reflexivity|].
  split; [reflexivity|].
  edestruct (PartialUpdate_has_no_id_check
               store None (person 0 "" 50) [] opScope builder copying
               healthy)
    as [Hpartial Hupdate];
    [reflexivity|reflexivity|reflexivity|reflexivity|].
  split; [eexists; exact Hpartial|apply Hupdate; reflexivity].
Defined.

Lemma operations_of_New_return_witness :
  OpScope (New (Some opScope) []) = Some opScope /\
  (forall params, returns (Get (New (Some opScope) []) (Some 7) params)).
Proof.
  split; [reflexivity|].
  apply (operations_of_New_return (Some opScope) [] (Some 7) opScope).
  reflexivity.
Defined.

Lemma operations_make_one_call_witness :
  OpScope store = Some opScope /\
  ScopeBuilder store = Some builder /\
  Converter store = Some copying /\
  (forall params,
      oneCall (Get store (Some 7) params) OpFirst
              (scoped opScope (Some 7) builder params) []).
Proof.
  split; [reflexivity|]. split; [reflexivity|]. split; [reflexivity|].
  apply (operations_make_one_call store (Some 7) opScope builder copying);
    reflexivity.
Defined.

Lemma CreateMany_number_of_inserts_witness :
  OpScope store = Some opScope /\
  Converter store = Some copying /\
  (0 < BatchSize store)%Z /\
  exists w' k,
    CreateMany store None (repeat alice 120) healthy = Some (None, w') /\
    length (calls w') = length (calls healthy) + k /\
    k = 3.
Proof.
  split; [reflexivity|]. split; [reflexivity|]. split; [reflexivity|].
  destruct (CreateMany_number_of_inserts
              store None (repeat alice 120) opScope copying healthy)
    as (st' & e & k & Hins & Hrun & Hlen & _ & Hfull & _);
    [reflexivity|reflexivity|reflexivity|].
  assert (He : e = None).
  { apply (f_equal (fun out => snd (fst out))) in Hins.
    vm_compute in Hins. symmetry. exact Hins. }
  eexists _, k. split; [rewrite Hrun, He; reflexivity|].
  split; [|exact (Hfull He)].
  cbn [calls]. rewrite length_app, length_map, Hlen. reflexivity.
Defined.

End Samples.

End gormstore.
